(** * testing-with-gomock: the Doer capability, its consumer and the entry point

    A shallow embedding of the Go packages [doer], [user], [match] and [main].
    Go code runs in a small monad [M] that threads the program state
    ([World]: standard output, the allocator, the heap of [User] objects and
    the state of capabilities other than the real one), may stop with a
    panic, and reports the method calls made through the [Doer] interface.
    The generated mock is not among the sources; the test substitute is
    modelled from section 4.3 of the specification and is one more
    implementation of [Doer]. *)

From Stdlib Require Import ZArith String Ascii List.
From Stdlib Require Import DecimalString DecimalPos DecimalZ.
From stdpp Require Import gmap strings.

Set Warnings "-register-all".

Local Open Scope Z_scope.

(** ** The parts of the Go runtime and standard library the program uses *)

Abbreviation addr := nat.

(** A pointer: [None] is [nil]. *)
Abbreviation pointer := (option addr).

(** A non-nil value of the interface type [error]: a pointer to an error
    object.  Go compares two such values by the pointer ([err_addr]);
    [err_text] is what the object's [Error()] method returns. *)
Record errorValue : Type := { err_addr : addr; err_text : string }.

(** Go's [error]: [None] is [nil]. *)
Definition error : Type := option errorValue.

(** How a Go function stops without returning: a run-time panic, or the end
    of the calling goroutine ([runtime.Goexit], which is how [testing.T]
    fails a test at once). *)
Inductive Abort : Type :=
  | Panic (msg : string)
  | Goexit.

Inductive Outcome (A : Type) : Type :=
  | Returned (a : A)
  | Aborted (x : Abort).
Arguments Returned {A} a.
Arguments Aborted {A} x.

(** The panic of a method call or field access through a nil pointer or a
    nil interface value. *)
Definition nil_dereference : Abort :=
  Panic "runtime error: invalid memory address or nil pointer dereference".

Definition newline : string := String "010" "".

(** [strconv.Itoa], and the verb [%d] of package [fmt] on an [int]: the
    decimal digits of the number, with a leading minus sign when it is
    negative and no leading zeros. *)
Definition Itoa (n : Z) : string := NilZero.string_of_int (Z.to_int n).

(** The string [part] occurs in the string [whole]. *)
Definition embeds (part whole : string) : Prop :=
  exists before after, whole = before +:+ part +:+ after.

(** An operand of [fmt.Printf], [fmt.Errorf] or [fmt.Println]. *)
Inductive Operand : Type :=
  | OString (s : string)
  | OInt (n : Z)
  | OError (e : errorValue).

(** The verb [%v]: how [fmt.Println] prints an operand. *)
Definition format_v (o : Operand) : string :=
  match o with
  | OString s => s
  | OInt n => Itoa n
  | OError e => err_text e
  end.

(** The types of the values this program passes around, and their names as
    [reflect.Type.String()] gives them. *)
Inductive GoType : Type :=
  | TInt
  | TString
  | TNamed (name : string)
  | TPtr (elem : GoType).

Fixpoint GoType_String (ty : GoType) : string :=
  match ty with
  | TInt => "int"
  | TString => "string"
  | TNamed name => name
  | TPtr elem => "*" +:+ GoType_String elem
  end.

Definition type_of (o : Operand) : GoType :=
  match o with
  | OString _ => TString
  | OInt _ => TInt
  | OError _ => TPtr (TNamed "errors.errorString")
  end.

(** The verb [%T]: the name of the operand's dynamic type. *)
Definition type_name (o : Operand) : string := GoType_String (type_of o).

(** What package [fmt] prints for a verb that does not fit its operand. *)
Definition bad_verb (verb : ascii) (o : Operand) : string :=
  "%!" +:+ String verb ("(" +:+ type_name o +:+ "=" +:+ format_v o +:+ ")").

Definition format_verb (verb : ascii) (o : Operand) : string :=
  match verb, o with
  | "s"%char, OString s => s
  | "s"%char, OError e => err_text e
  | "d"%char, OInt n => Itoa n
  | "v"%char, _ => format_v o
  | _, _ => bad_verb verb o
  end.

Fixpoint format_extra (args : list Operand) : string :=
  match args with
  | [] => ""
  | [o] => type_name o +:+ "=" +:+ format_v o
  | o :: rest => type_name o +:+ "=" +:+ format_v o +:+ ", " +:+ format_extra rest
  end.

(** [fmt.Sprintf]: the format is copied, each verb [%c] consumes the next
    operand and [%%] stands for a percent sign. *)
Fixpoint Sprintf (format : string) (args : list Operand) : string :=
  match format with
  | EmptyString =>
      match args with
      | [] => ""
      | _ => "%!(EXTRA " +:+ format_extra args +:+ ")"
      end
  | String "%" EmptyString => "%!(NOVERB)"
  | String "%" (String "%" rest) => String "%" (Sprintf rest args)
  | String "%" (String verb rest) =>
      match args with
      | [] => "%!" +:+ String verb ("(MISSING)" +:+ Sprintf rest [])
      | o :: args' => format_verb verb o +:+ Sprintf rest args'
      end
  | String c rest => String c (Sprintf rest args)
  end.

(** [fmt.Sprintln]: the operands in their default format, separated by
    spaces, and a newline. *)
Fixpoint Sprintln (args : list Operand) : string :=
  match args with
  | [] => newline
  | [o] => format_v o +:+ newline
  | o :: rest => format_v o +:+ " " +:+ Sprintln rest
  end.

(** ** The program *)

(** doer/doer.go:14, [type doerImpl struct{}].  The struct is empty, so a
    [*doerImpl] carries nothing but its type. *)
Inductive doerImpl : Type := doerImpl_ptr.

Section Program.

(** [Other] stands for every type besides [*doerImpl] that implements the
    interface [Doer] (the generated mock, a hand-written fake, ...), and
    [E] for the state such implementations keep. *)
Context {Other E : Type}.

(** A non-nil value of the interface type [doer.Doer]: its dynamic type
    and the object that it holds. *)
Inductive DoerObj : Type :=
  | RealDoer (d : doerImpl)
  | OtherDoer (o : Other).

(** user/user.go:5-7, [type User struct { Doer doer.Doer }]; the field is
    [User_Doer] here, [Doer] being the interface.  [None] is the nil
    interface value. *)
Record User : Type := { User_Doer : option DoerObj }.

Record World : Type := {
  stdout : string;             (* what has been written to standard output *)
  next_addr : addr;            (* the next free address *)
  users : gmap addr User;      (* the [User] objects on the heap *)
  ext : E                      (* the state of the other implementations *)
}.

(** A method call made through the interface [Doer]: the receiver, the
    arguments and the calls the method itself made while it ran. *)
Inductive Event : Type :=
  | Call (d : DoerObj) (n : Z) (s : string) (inner : list Event).

(** A Go computation: from the state before to how it stopped, the state
    after and the interface calls it made, in order. *)
Definition M (A : Type) : Type := World -> Outcome A * World * list Event.

Definition ret {A : Type} (a : A) : M A := fun w => (Returned a, w, []).

Definition bind {A B : Type} (m : M A) (k : A -> M B) : M B := fun w =>
  match m w with
  | (Returned a, w1, t1) =>
      match k a w1 with
      | (r, w2, t2) => (r, w2, t1 ++ t2)
      end
  | (Aborted x, w1, t1) => (Aborted x, w1, t1)
  end.

Notation "x <- m ;; k" := (bind m (fun x => k))
  (at level 62, m at next level, right associativity, only parsing).

Definition outcome {A : Type} (r : Outcome A * World * list Event) : Outcome A :=
  r.1.1.
Definition world {A : Type} (r : Outcome A * World * list Event) : World :=
  r.1.2.
Definition trace {A : Type} (r : Outcome A * World * list Event) : list Event :=
  r.2.

(** *** Primitive operations *)

Definition write (s : string) (w : World) : World :=
  {| stdout := stdout w +:+ s; next_addr := next_addr w;
     users := users w; ext := ext w |}.

(** Writing to standard output ([os.Stdout.Write]). *)
Definition Print (s : string) : M unit := fun w => (Returned tt, write s w, []).

Definition Printf (format : string) (args : list Operand) : M unit :=
  Print (Sprintf format args).

Definition Println (args : list Operand) : M unit :=
  Print (Sprintln args).

(** [fmt.Errorf]: a new error object that holds the formatted text. *)
Definition Errorf (format : string) (args : list Operand) : M error := fun w =>
  (Returned (Some {| err_addr := next_addr w; err_text := Sprintf format args |}),
   {| stdout := stdout w; next_addr := S (next_addr w);
      users := users w; ext := ext w |},
   []).

(** [&User{...}]: a new [User] object on the heap. *)
Definition new_User (u : User) : M pointer := fun w =>
  (Returned (Some (next_addr w)),
   {| stdout := stdout w; next_addr := S (next_addr w);
      users := <[next_addr w := u]> (users w); ext := ext w |},
   []).

(** Reading through a [*User]: a nil pointer panics. *)
Definition load_User (p : pointer) : M User := fun w =>
  match p with
  | Some a =>
      match users w !! a with
      | Some u => (Returned u, w, [])
      | None => (Aborted nil_dereference, w, [])
      end
  | None => (Aborted nil_dereference, w, [])
  end.

(** *** Package doer *)

(** doer/doer.go:10-12, the interface: a type [T] implements [Doer] when
    it has the method [DoSomething(int, string) error]. *)
Class Doer (T : Type) : Type := DoSomething : T -> Z -> string -> M error.

(** The method of whatever other implementation the program is linked
    with. *)
Context `{Other_Doer : !Doer Other}.

(** doer/doer.go:16-18.  The variable that [&doerImpl{}] creates has size
    zero and no content; it takes no address here: [next_addr] numbers the
    [User] objects and the error objects only. *)
Definition NewDoer : M doerImpl := ret doerImpl_ptr.

(** doer/doer.go:20-26 *)
Definition doerImpl_DoSomething (d : doerImpl) (n : Z) (str : string) : M error :=
  _ <- Printf ("DoSomething %s %d times" +:+ newline) [OString str; OInt n] ;;
  if String.eqb (Itoa n) str then
    ret None
  else
    Errorf "error: %s != %d" [OString str; OInt n].

#[export] Instance doerImpl_Doer : Doer doerImpl := doerImpl_DoSomething.

(** The state after the diagnostic line of doer/doer.go:21. *)
Definition diagnosed (n : Z) (str : string) (w : World) : World :=
  write ("DoSomething " +:+ str +:+ " " +:+ Itoa n +:+ " times" +:+ newline) w.

(** The method that a call on an interface value is dispatched to. *)
Definition method (d : DoerObj) : Z -> string -> M error :=
  match d with
  | RealDoer p => DoSomething p
  | OtherDoer o => DoSomething o
  end.

(** A call [i.DoSomething(n, s)] on a value [i] of the interface type:
    a nil interface panics, otherwise the method of the dynamic type runs
    and the call is reported. *)
Definition invoke (i : option DoerObj) (n : Z) (s : string) : M error := fun w =>
  match i with
  | Some d =>
      match method d n s w with
      | (r, w', inner) => (r, w', [Call d n s inner])
      end
  | None => (Aborted nil_dereference, w, [])
  end.

(** *** Package user *)

(** user/user.go:9-11 *)
Definition Use (u : pointer) : M error :=
  this <- load_User u ;;
  invoke (User_Doer this) 123 "Hello GoMock".

(** user/user.go:13-15 *)
Definition NewUser (doer : option DoerObj) : M pointer :=
  new_User {| User_Doer := doer |}.

(** *** Package main *)

(** main.go:9-21.  [doer] has the static type [*doerImpl]; passing it to
    [NewUser] makes it a non-nil interface value. *)
Definition main : M unit :=
  _ <- Println [OString "start"] ;;
  doer <- NewDoer ;;
  user <- NewUser (Some (RealDoer doer)) ;;
  err <- Use user ;;
  _ <- match err with
       | Some e => Println [OError e]
       | None => ret tt
       end ;;
  Println [OString "end"].

(** [main] with the constructor call of main.go:12 left open: [newDoer]
    yields the capability that is wired into the consumer. *)
Definition main_with (newDoer : M (option DoerObj)) : M unit :=
  _ <- Println [OString "start"] ;;
  doer <- newDoer ;;
  user <- NewUser doer ;;
  err <- Use user ;;
  _ <- match err with
       | Some e => Println [OError e]
       | None => ret tt
       end ;;
  Println [OString "end"].

(** The exit status of the process: 0 when [main] returns, 2 when the
    program dies of a panic. *)
Definition exit_status (r : Outcome unit) : Z :=
  match r with
  | Returned _ => 0
  | Aborted _ => 2
  end.

(** main.go:12-15: the consumer as [main] wires it, and its call of
    [Use]. *)
Definition wired_Use : M error :=
  doer <- NewDoer ;;
  user <- NewUser (Some (RealDoer doer)) ;;
  Use user.

(** The [User] object at address [a] holds the capability [d]. *)
Definition holds (a : addr) (d : DoerObj) (w : World) : Prop :=
  users w !! a = Some {| User_Doer := Some d |}.

(** The event [ev] is a call of [d.DoSomething(123, "Hello GoMock")]. *)
Definition is_fixed_call (d : DoerObj) (ev : Event) : Prop :=
  exists inner, ev = Call d 123 "Hello GoMock" inner.

(** The state in which [main_with] calls [Use]: after the line ["start"]
    and the construction of the consumer (main.go:10-13). *)
Definition before_Use (d : DoerObj) (w : World) : World :=
  world (NewUser (Some d) (write ("start" +:+ newline) w)).

(** [k] calls of [u.Use()] in a row. *)
Fixpoint Use_times (k : nat) (u : pointer) : M unit :=
  match k with
  | O => ret tt
  | S k' => _ <- Use u ;; Use_times k' u
  end.

End Program.

Arguments DoerObj : clear implicits.
Arguments User : clear implicits.
Arguments World : clear implicits.
Arguments Event : clear implicits.
Arguments M : clear implicits.
Arguments Doer : clear implicits.

(** ** Package match: a matcher on the dynamic type of an argument *)

Section Match.

(** Package [reflect]: [rtype] are the type descriptors of the program,
    [rtype_String] is the method [String()] of [reflect.Type], and [V] are
    the values an interface can hold. *)
Context {rtype V : Type}.
Variable rtype_String : rtype -> string.

(** A value of type [interface{}]: nil, or a value with its dynamic
    type. *)
Inductive eface : Type :=
  | eface_nil
  | eface_of (ty : rtype) (v : V).

(** [reflect.TypeOf]: the dynamic type, or the nil [reflect.Type] for a
    nil interface value. *)
Definition TypeOf (x : eface) : option rtype :=
  match x with
  | eface_nil => None
  | eface_of ty _ => Some ty
  end.

(** part_000:7-9 *)
Record ofType : Type := { t : string }.

(** part_000:11-13 *)
Definition NewOfType (t : string) : ofType := {| t := t |}.

(** part_000:15-17.  The call of [String()] on a nil [reflect.Type]
    panics. *)
Definition ofType_Matches (o : ofType) (x : eface) : Outcome bool :=
  match TypeOf x with
  | Some ty => Returned (String.eqb (rtype_String ty) (t o))
  | None => Aborted nil_dereference
  end.

(** part_000:19-21 *)
Definition ofType_String (o : ofType) : string := "is of type " +:+ t o.

End Match.

Arguments eface : clear implicits.

(** Boxing a value into an [interface{}]. *)
Definition box (o : Operand) : eface GoType Operand := eface_of (type_of o) o.

(** ** The test substitute *)

#[global] Instance errorValue_eq_dec : EqDecision errorValue.
Proof. solve_decision. Defined.

#[global] Instance Operand_eq_dec : EqDecision Operand.
Proof. solve_decision. Defined.

(** Modelled from the spec: the argument matchers of the test substitute
    (section 4.3 and section 9: "tagged variant: exact-value matcher vs.
    predicate matcher vs. wildcard matcher"); the mocking library is not
    among the source files. *)
Inductive Matcher : Type :=
  | Exact (v : Operand)
  | Predicate (description : string) (p : Operand -> bool)
  | Wildcard.

(** Modelled from the spec: whether an argument satisfies a matcher
    ("an exact-equality matcher by default, or an explicit predicate-style
    matcher"; the wildcard accepts every argument). *)
Definition matches (m : Matcher) (x : Operand) : bool :=
  match m with
  | Exact v => bool_decide (x = v)
  | Predicate _ p => p x
  | Wildcard => true
  end.

(** Modelled from the spec: an expectation of the test substitute (section
    4.3 (b), (c)): the expected method and argument matchers, the expected
    call count (minimum and maximum; an exact count has both equal), the
    expectations that must be satisfied before this one is eligible (by
    position in the list of declared expectations), the canned outcome, and
    how often the expectation has been matched so far.  The side-effect
    callback of (d) takes no part in matching and is left out. *)
Record Expectation : Type := {
  exp_method : string;
  exp_args : list Matcher;
  exp_min : nat;
  exp_max : nat;
  exp_after : list nat;
  exp_return : error;
  exp_calls : nat
}.

(** Modelled from the spec: the state of the test substitute (section 4.3
    (a), (b), (e)): the declared expectations in the order of declaration,
    the recorded invocations in the order of arrival, and the test failures
    signalled so far. *)
Record Substitute : Type := {
  expectations : list Expectation;
  invocations : list (string * list Operand);
  failures : list string
}.

(** Modelled from the spec: "each declared expectation matches an incoming
    call if every positional argument satisfies its associated matcher". *)
Fixpoint args_match (ms : list Matcher) (args : list Operand) : bool :=
  match ms, args with
  | [], [] => true
  | m :: ms', x :: args' => matches m x && args_match ms' args'
  | _, _ => false
  end.

(** Modelled from the spec: an expectation is exhausted when it has been
    matched as often as its maximum allows. *)
Definition exhausted (e : Expectation) : bool := (exp_max e <=? exp_calls e)%nat.

(** Modelled from the spec: an expectation is satisfied when it has been
    matched "the expected number of times", neither less than its minimum
    nor more than its maximum. *)
Definition satisfied (e : Expectation) : bool :=
  (exp_min e <=? exp_calls e)%nat && (exp_calls e <=? exp_max e)%nat.

(** Modelled from the spec: "expectation A must be satisfied before
    expectation B is eligible". *)
Definition order_eligible (all : list Expectation) (e : Expectation) : bool :=
  forallb (fun j => match all !! j with
                    | Some a => satisfied a
                    | None => true
                    end) (exp_after e).

(** Modelled from the spec: the expectation [e] can take the call: it is an
    expectation of this method, its matchers all succeed, it is not yet
    exhausted and it is eligible by order. *)
Definition selectable (all : list Expectation) (method : string)
    (args : list Operand) (e : Expectation) : bool :=
  String.eqb (exp_method e) method
  && args_match (exp_args e) args
  && negb (exhausted e)
  && order_eligible all e.

(** Modelled from the spec: "the first declared, not-yet-exhausted,
    order-eligible expectation whose matchers all succeed is selected".
    [i] is the position of the head of [rest] among the declared
    expectations [all]. *)
Fixpoint find_from (all rest : list Expectation) (i : nat) (method : string)
    (args : list Operand) : option (nat * Expectation) :=
  match rest with
  | [] => None
  | e :: rest' =>
      if selectable all method args e then Some (i, e)
      else find_from all rest' (S i) method args
  end.

(** Modelled from the spec: the expectation selected for a call, with its
    position, if there is one. *)
Definition find_match (s : Substitute) (method : string) (args : list Operand)
    : option (nat * Expectation) :=
  find_from (expectations s) (expectations s) 0 method args.

Fixpoint join (sep : string) (parts : list string) : string :=
  match parts with
  | [] => ""
  | [p] => p
  | p :: rest => p +:+ sep +:+ join sep rest
  end.

(** Modelled from the spec: the call as a failure message names it, the
    method and its arguments. *)
Definition show_call (method : string) (args : list Operand) : string :=
  method +:+ "(" +:+ join ", " (map format_v args) +:+ ")".

(** Modelled from the spec: the expectation after one more match. *)
Definition count_call (e : Expectation) : Expectation :=
  {| exp_method := exp_method e; exp_args := exp_args e;
     exp_min := exp_min e; exp_max := exp_max e; exp_after := exp_after e;
     exp_return := exp_return e; exp_calls := S (exp_calls e) |}.

(** Modelled from the spec: the substitute capability object (the type
    that mocks/mock_doer.go would declare); one substitute per test. *)
Inductive MockDoer : Type := MockDoer_ptr.

(** Modelled from the spec: an incoming call on the test substitute
    (section 4.3): the invocation is recorded, then the selected expectation
    is counted and its canned outcome returned, and "if no expectation
    matches, the substitute fails the test immediately with a descriptive
    message naming the call and its arguments". *)
Definition substitute_call (method : string) (args : list Operand)
    : M MockDoer Substitute error := fun w =>
  let s := ext w in
  let recorded := invocations s ++ [(method, args)] in
  match find_match s method args with
  | Some (i, e) =>
      (Returned (exp_return e),
       {| stdout := stdout w; next_addr := next_addr w; users := users w;
          ext := {| expectations := <[i := count_call e]> (expectations s);
                    invocations := recorded;
                    failures := failures s |} |},
       [])
  | None =>
      (Aborted Goexit,
       {| stdout := stdout w; next_addr := next_addr w; users := users w;
          ext := {| expectations := expectations s;
                    invocations := recorded;
                    failures := failures s ++
                      ["unexpected call to " +:+ show_call method args] |} |},
       [])
  end.

(** Modelled from the spec: the substitute implements the capability; its
    [DoSomething] is an incoming call with the two arguments. *)
#[global] Instance MockDoer_Doer : Doer MockDoer Substitute MockDoer :=
  fun _ n s => substitute_call "DoSomething" [OInt n; OString s].

(** Modelled from the spec: the finalization point (section 4.3 (e)): one
    test failure for every expectation that was not satisfied the expected
    number of times. *)
Definition unmet (s : Substitute) : list Expectation :=
  filter (fun e => satisfied e = false) (expectations s).

(** Modelled from the spec: the finalization point signals a test failure
    for each unmet expectation. *)
Definition Finish : M MockDoer Substitute unit := fun w =>
  let s := ext w in
  (Returned tt,
   {| stdout := stdout w; next_addr := next_addr w; users := users w;
      ext := {| expectations := expectations s;
                invocations := invocations s;
                failures := failures s ++
                  map (fun e => "unmet expectation " +:+ exp_method e) (unmet s) |} |},
   []).

(** Modelled from the spec: declaring an expectation in advance (section
    4.3 (b)); it comes after the ones declared before. *)
Definition EXPECT (e : Expectation) : M MockDoer Substitute unit := fun w =>
  let s := ext w in
  (Returned tt,
   {| stdout := stdout w; next_addr := next_addr w; users := users w;
      ext := {| expectations := expectations s ++ [e];
                invocations := invocations s;
                failures := failures s |} |},
   []).

(** ** The scenarios of the tests *)

Definition no_expectations : Substitute :=
  {| expectations := []; invocations := []; failures := [] |}.

(** The state at the start of a test: nothing printed, nothing allocated,
    nothing declared. *)
Definition start_world : World MockDoer Substitute :=
  {| stdout := ""; next_addr := 1; users := ∅; ext := no_expectations |}.

Definition real : DoerObj MockDoer := RealDoer doerImpl_ptr.

Definition mock : DoerObj MockDoer := OtherDoer MockDoer_ptr.

(** [errors.New("dummy error")] of the tests. *)
Definition dummyError : errorValue :=
  {| err_addr := 0; err_text := "dummy error" |}.

(** [EXPECT().DoSomething(123, "Hello GoMock").Return(r).Times(1)] *)
Definition expect_once (r : error) : Expectation :=
  {| exp_method := "DoSomething";
     exp_args := [Exact (OInt 123); Exact (OString "Hello GoMock")];
     exp_min := 1; exp_max := 1; exp_after := [];
     exp_return := r; exp_calls := 0 |}.

(** The state of a test after it declared [expect_once r] and built a
    consumer of the substitute; the consumer is at address 1. *)
Definition test_world (r : error) : World MockDoer Substitute :=
  world (bind (EXPECT (expect_once r)) (fun _ => NewUser (Some mock)) start_world).

(** The state after [NewUser(NewDoer())]; the consumer is at address 1. *)
Definition real_world : World MockDoer Substitute :=
  world (NewUser (Some real) start_world).

(** ** A test with several expectations *)

(** The arguments of the call that [Use] makes. *)
Definition fixed_args : list Operand := [OInt 123; OString "Hello GoMock"].

(** The type matcher of package match as a predicate matcher of the
    substitute: [match.OfType(name)]. *)
Definition OfType (name : string) : Matcher :=
  Predicate (ofType_String (NewOfType name))
    (fun x => match ofType_Matches GoType_String (NewOfType name) (box x) with
              | Returned b => b
              | Aborted _ => false
              end).

(** An expectation of the very call, once, that has had its one call. *)
Definition used_up : Expectation :=
  {| exp_method := "DoSomething";
     exp_args := [Exact (OInt 123); Exact (OString "Hello GoMock")];
     exp_min := 1; exp_max := 1; exp_after := [];
     exp_return := None; exp_calls := 1 |}.

(** An expectation of any call, eligible only after the expectation at
    position [j]. *)
Definition waiting_for (j : nat) : Expectation :=
  {| exp_method := "DoSomething";
     exp_args := [Wildcard; Wildcard];
     exp_min := 0; exp_max := 1; exp_after := [j];
     exp_return := None; exp_calls := 0 |}.

(** An expectation of [DoSomething(123, any string)], once or twice, after
    the expectation at position 0, returning [dummyError]; it has had one
    call. *)
Definition taking : Expectation :=
  {| exp_method := "DoSomething";
     exp_args := [Exact (OInt 123); OfType "string"];
     exp_min := 1; exp_max := 2; exp_after := [0%nat];
     exp_return := Some dummyError; exp_calls := 1 |}.

(** An expectation of a call with another count, not yet called. *)
Definition other_count : Expectation :=
  {| exp_method := "DoSomething";
     exp_args := [Exact (OInt 7); Wildcard];
     exp_min := 1; exp_max := 1; exp_after := [];
     exp_return := None; exp_calls := 0 |}.

(** An expectation of any call, up to five times. *)
Definition catch_all : Expectation :=
  {| exp_method := "DoSomething";
     exp_args := [Wildcard; Wildcard];
     exp_min := 0; exp_max := 5; exp_after := [];
     exp_return := None; exp_calls := 0 |}.

(** A test in mid-run: of its five expectations the first is used up, the
    second waits for the fourth, the third and the fifth can take the call
    of [Use]. *)
Definition busy_world : World MockDoer Substitute :=
  {| stdout := ""; next_addr := 1; users := ∅;
     ext := {| expectations :=
                 [used_up; waiting_for 3; taking; other_count; catch_all];
               invocations := [("DoSomething", fixed_args);
                               ("DoSomething", fixed_args)];
               failures := [] |} |}.

(** A test in which no expectation can take the call of [Use]: one is used
    up, one waits for the third, the third is for another count. *)
Definition spent_world : World MockDoer Substitute :=
  {| stdout := ""; next_addr := 1; users := ∅;
     ext := {| expectations := [used_up; waiting_for 2; other_count];
               invocations := [("DoSomething", fixed_args)];
               failures := [] |} |}.

(** ** A capability that reassigns the consumer's field *)

(** A capability as a client of package user can write it, the field
    [Doer] of [User] being exported (user/user.go:6):
    [type rewire struct{ u *user.User }] with the method
    [func (r *rewire) DoSomething(int, string) error
       { r.u.Doer = doer.NewDoer(); return nil }]. *)
Inductive Rewire : Type := Rewire_ptr.

(** The state of [Rewire] is its field [u]. *)
#[global] Instance Rewire_Doer : Doer Rewire pointer Rewire := fun _ _ _ w =>
  match ext w with
  | Some a =>
      match users w !! a with
      | Some _ =>
          (Returned None,
           {| stdout := stdout w; next_addr := next_addr w;
              users := <[a := {| User_Doer := Some (RealDoer doerImpl_ptr) |}]>
                         (users w);
              ext := ext w |},
           [])
      | None => (Aborted nil_dereference, w, [])
      end
  | None => (Aborted nil_dereference, w, [])
  end.

Definition rewire : DoerObj Rewire := OtherDoer Rewire_ptr.

(** The state after [r := &rewire{}]: the field [u] is nil. *)
Definition rewire_start : World Rewire pointer :=
  {| stdout := ""; next_addr := 1; users := ∅; ext := None |}.

(** The state after [r := &rewire{}; u := user.NewUser(r); r.u = u]: the
    consumer is at address 1. *)
Definition rewire_world : World Rewire pointer :=
  {| stdout := stdout (world (NewUser (Some rewire) rewire_start));
     next_addr := next_addr (world (NewUser (Some rewire) rewire_start));
     users := users (world (NewUser (Some rewire) rewire_start));
     ext := Some 1%nat |}.

(** ** Repeated output *)

(** [k] copies of [s], one after the other. *)
Fixpoint repeat_string (k : nat) (s : string) : string :=
  match k with
  | O => ""
  | S k' => s +:+ repeat_string k' s
  end.

(** The line that doer/doer.go:21 prints for the call [Use] makes. *)
Definition fixed_line : string :=
  "DoSomething Hello GoMock 123 times" +:+ newline.

(** * Properties *)

(** ** Strings *)

Lemma append_empty_r (s : string) : s +:+ "" = s.
Proof.
  induction s as [|c s IH]; [reflexivity |].
  change (String c (s +:+ "") = String c s). now rewrite IH.
Qed.

Lemma append_assoc (a b c : string) : (a +:+ b) +:+ c = a +:+ (b +:+ c).
Proof.
  induction a as [|x a IH]; [reflexivity |].
  change (String x ((a +:+ b) +:+ c) = String x (a +:+ (b +:+ c))).
  now rewrite IH.
Qed.

Lemma embeds_refl (s : string) : embeds s s.
Proof. exists "", "". symmetry. apply append_empty_r. Qed.

Lemma embeds_append_l (p a b : string) : embeds p a -> embeds p (a +:+ b).
Proof.
  intros (x & y & ->). exists x, (y +:+ b).
  now rewrite !append_assoc.
Qed.

Lemma embeds_append_r (p a b : string) : embeds p b -> embeds p (a +:+ b).
Proof.
  intros (x & y & ->). exists (a +:+ x), y.
  now rewrite !append_assoc.
Qed.

Create HintDb embeds.
#[local] Hint Resolve embeds_refl embeds_append_l embeds_append_r : embeds.

(** ** The decimal form of an integer *)

Example Itoa_123 : Itoa 123 = "123".
Proof. reflexivity. Qed.

Example Itoa_0 : Itoa 0 = "0".
Proof. reflexivity. Qed.

Example Itoa_neg : Itoa (-9223372036854775808) = "-9223372036854775808".
Proof. reflexivity. Qed.

(** The decimal form reads back as the number it was made from. *)
Lemma Itoa_reads_back (n : Z) :
  Z.of_int <$> NilZero.int_of_string (Itoa n) = Some n.
Proof.
  unfold Itoa. rewrite NilZero.isi.
  - cbn. now rewrite DecimalZ.of_to.
  - destruct n; cbn; try discriminate.
    intros [= Hp]. now apply Unsigned.to_uint_nonnil in Hp.
  - destruct n; cbn; try discriminate.
    intros [= Hp]. now apply Unsigned.to_uint_nonnil in Hp.
Qed.

(** Different integers have different decimal forms. *)
Lemma Itoa_inj (n m : Z) : Itoa n = Itoa m -> n = m.
Proof.
  intros H. pose proof (Itoa_reads_back n) as Hn.
  rewrite H, Itoa_reads_back in Hn. congruence.
Qed.

(** The two formats of doer/doer.go. *)
Lemma Sprintf_error (str : string) (n : Z) :
  Sprintf "error: %s != %d" [OString str; OInt n]
  = "error: " +:+ str +:+ " != " +:+ Itoa n.
Proof.
  change (Sprintf "error: %s != %d" [OString str; OInt n])
    with ("error: " +:+ str +:+ " != " +:+ Itoa n +:+ "").
  now rewrite append_empty_r.
Qed.

Lemma Sprintf_diagnostic (str : string) (n : Z) :
  Sprintf ("DoSomething %s %d times" +:+ newline) [OString str; OInt n]
  = "DoSomething " +:+ str +:+ " " +:+ Itoa n +:+ " times" +:+ newline.
Proof. reflexivity. Qed.

(** ** The real capability *)

Section Doer_facts.

Context {Other E : Type} `{Other_Doer : !Doer Other E Other}.
Implicit Types (w : World Other E) (d : doerImpl) (n : Z) (s : string).

Lemma DoSomething_equal d n s w :
  Itoa n = s ->
  doerImpl_DoSomething d n s w = (Returned None, diagnosed n s w, []).
Proof.
  intros H. unfold doerImpl_DoSomething, bind, Printf, Print, ret.
  rewrite Sprintf_diagnostic.
  apply String.eqb_eq in H. now rewrite H.
Qed.

Lemma DoSomething_differ d n s w :
  Itoa n <> s ->
  doerImpl_DoSomething d n s w
  = (Returned (Some {| err_addr := next_addr w;
                       err_text := "error: " +:+ s +:+ " != " +:+ Itoa n |}),
     {| stdout := stdout (diagnosed n s w); next_addr := S (next_addr w);
        users := users w; ext := ext w |},
     []).
Proof.
  intros H. unfold doerImpl_DoSomething, bind, Printf, Print, ret, Errorf.
  rewrite Sprintf_diagnostic, Sprintf_error.
  apply String.eqb_neq in H. now rewrite H.
Qed.

(** C1.  For every integer [n] and string [s], [DoSomething(n, s)] of the
    real capability returns nil exactly when the decimal form of [n] is
    [s]; otherwise it returns an error whose text is
    ["error: " + s + " != " + decimal form of n], which embeds both
    values. *)
Theorem DoSomething_succeeds_iff_decimal d n s w :
  (outcome (doerImpl_DoSomething d n s w) = Returned None <-> Itoa n = s)
  /\ (Itoa n <> s ->
      exists e : errorValue,
        outcome (doerImpl_DoSomething d n s w) = Returned (Some e)
        /\ err_text e = "error: " +:+ s +:+ " != " +:+ Itoa n
        /\ embeds s (err_text e)
        /\ embeds (Itoa n) (err_text e)).
Proof.
  split.
  - destruct (String.eqb_spec (Itoa n) s) as [Heq | Hne].
    + rewrite (DoSomething_equal _ _ _ _ Heq). now split.
    + rewrite (DoSomething_differ _ _ _ _ Hne). split; [discriminate | easy].
  - intros Hne. rewrite (DoSomething_differ _ _ _ _ Hne).
    eexists. split; [reflexivity |]. cbn [err_text].
    repeat split; eauto 6 with embeds.
Qed.

Lemma DoSomething_keeps_users d n s w :
  users (world (doerImpl_DoSomething d n s w)) = users w.
Proof.
  destruct (String.eqb_spec (Itoa n) s) as [Heq | Hne].
  - now rewrite (DoSomething_equal _ _ _ _ Heq).
  - now rewrite (DoSomething_differ _ _ _ _ Hne).
Qed.

(** C4.  [DoSomething(123, "124")] of the real capability returns an error
    whose text is exactly ["error: 124 != 123"]: the label comes before
    the count. *)
Theorem DoSomething_123_124 d w :
  outcome (doerImpl_DoSomething d 123 "124" w)
  = Returned (Some {| err_addr := next_addr w;
                      err_text := "error: 124 != 123" |}).
Proof. reflexivity. Qed.

End Doer_facts.

(** ** The consumer *)

Section User_facts.

Context {Other E : Type} `{Other_Doer : !Doer Other E Other}.
Implicit Types (w : World Other E) (d : DoerObj Other) (a : addr).

Lemma NewUser_eq (i : option (DoerObj Other)) w :
  NewUser i w
  = (Returned (Some (next_addr w)),
     {| stdout := stdout w; next_addr := S (next_addr w);
        users := <[next_addr w := {| User_Doer := i |}]> (users w);
        ext := ext w |},
     []).
Proof. reflexivity. Qed.

Lemma NewUser_holds d w : holds (next_addr w) d (world (NewUser (Some d) w)).
Proof. unfold holds. rewrite NewUser_eq. apply lookup_insert_eq. Qed.

(** [Use] reads the field and makes one call; it writes nothing itself. *)
Lemma Use_holds d a w :
  holds a d w ->
  Use (Some a) w
  = (outcome (method d 123 "Hello GoMock" w),
     world (method d 123 "Hello GoMock" w),
     [Call d 123 "Hello GoMock" (trace (method d 123 "Hello GoMock" w))]).
Proof.
  unfold holds. intros H. unfold Use, bind, load_User, invoke. rewrite H.
  cbn [User_Doer].
  destruct (method d 123 "Hello GoMock" w) as [[r w'] inner].
  reflexivity.
Qed.

(** C2.  Whatever capability [d] the consumer was constructed with, a call
    of its [Use()] makes exactly one call through the interface, and that
    call is [d.DoSomething(123, "Hello GoMock")]. *)
Theorem Use_calls_capability_once d a w :
  holds a d w ->
  trace (Use (Some a) w)
  = [Call d 123 "Hello GoMock" (trace (method d 123 "Hello GoMock" w))].
Proof. intros H. now rewrite (Use_holds _ _ _ H). Qed.

(** C3.  Whatever capability [d] the consumer was constructed with, [Use()]
    ends the way [d.DoSomething(123, "Hello GoMock")] ended: nil is returned
    as nil and an error value is returned as the same error value (same
    object, same text); the state is the one the capability left. *)
Theorem Use_returns_what_capability_returned d a w :
  holds a d w ->
  outcome (Use (Some a) w) = outcome (method d 123 "Hello GoMock" w)
  /\ world (Use (Some a) w) = world (method d 123 "Hello GoMock" w).
Proof. intros H. now rewrite (Use_holds _ _ _ H). Qed.

Lemma Use_times_S (k : nat) (u : pointer) w :
  Use_times (S k) u w = bind (Use u) (fun _ => Use_times k u) w.
Proof. reflexivity. Qed.

(** As long as the capability's own method does not overwrite the
    consumer's field, any number of calls of [Use()] all go to the
    capability the consumer holds, and the consumer stays as it is. *)
Lemma Use_times_delegates d a :
  (forall w', holds a d w' -> holds a d (world (method d 123 "Hello GoMock" w'))) ->
  forall (k : nat) w,
    holds a d w ->
    holds a d (world (Use_times k (Some a) w))
    /\ Forall (is_fixed_call d) (trace (Use_times k (Some a) w))
    /\ (outcome (Use_times k (Some a) w) = Returned tt ->
        length (trace (Use_times k (Some a) w)) = k).
Proof.
  intros Hframe k. induction k as [|k IH]; intros w Hw.
  - cbn. repeat split; [exact Hw | constructor].
  - rewrite Use_times_S. unfold bind. rewrite (Use_holds _ _ _ Hw).
    specialize (Hframe w Hw).
    destruct (method d 123 "Hello GoMock" w) as [[[r|x] w1] inner];
      cbn [outcome world trace fst snd] in *.
    + destruct (IH w1 Hframe) as (Hh & Ht & Hn).
      destruct (Use_times k (Some a) w1) as [[r' w2] t2];
        cbn [outcome world trace fst snd] in *.
      repeat split.
      * exact Hh.
      * constructor; [now eexists | exact Ht].
      * intros Hr. cbn. now rewrite (Hn Hr).
    + repeat split.
      * exact Hframe.
      * constructor; [now eexists | constructor].
      * discriminate.
Qed.

(** C6.  The consumer is one reference to a capability and nothing else:
    [NewUser] stores the capability it is given in a new object, [Use()]
    writes nothing of its own (the state after it is the state the
    capability's method left), and, the capability not overwriting the
    consumer, every one of any number of calls of [Use()] is a call of
    the capability the consumer was constructed with and leaves the
    consumer as it was. *)
Theorem consumer_delegates_to_its_capability
    (i : option (DoerObj Other)) d a w (k : nat) :
  (outcome (NewUser i w) = Returned (Some (next_addr w))
   /\ users (world (NewUser i w))
      = <[next_addr w := {| User_Doer := i |}]> (users w))
  /\ (forall u : User Other, u = {| User_Doer := User_Doer u |})
  /\ (holds a d w ->
      world (Use (Some a) w) = world (method d 123 "Hello GoMock" w))
  /\ ((forall w', holds a d w' ->
                  holds a d (world (method d 123 "Hello GoMock" w'))) ->
      holds a d w ->
      holds a d (world (Use_times k (Some a) w))
      /\ Forall (is_fixed_call d) (trace (Use_times k (Some a) w))
      /\ (outcome (Use_times k (Some a) w) = Returned tt ->
          length (trace (Use_times k (Some a) w)) = k)).
Proof.
  split; [now rewrite NewUser_eq |].
  split; [now intros [?] |].
  split; [intros H; now rewrite (Use_holds _ _ _ H) |].
  intros Hframe Hw. now apply Use_times_delegates.
Qed.

End User_facts.

(** ** The entry point *)

Section Main_facts.

Context {Other E : Type} `{Other_Doer : !Doer Other E Other}.
Implicit Types (w : World Other E) (d : DoerObj Other).

Lemma before_Use_holds d w : holds (next_addr w) d (before_Use d w).
Proof. unfold before_Use. apply (NewUser_holds d (write _ w)). Qed.

(** [main_with], step by step: the line ["start"], the construction, the
    call of [Use], the line of the error if there is one, the line
    ["end"]. *)
Lemma main_with_eq d w :
  main_with (ret (Some d)) w
  = let r := method d 123 "Hello GoMock" (before_Use d w) in
    let calls := [Call d 123 "Hello GoMock" (trace r)] in
    match outcome r with
    | Returned None =>
        (Returned tt, write ("end" +:+ newline) (world r), calls)
    | Returned (Some e) =>
        (Returned tt,
         write ("end" +:+ newline) (write (err_text e +:+ newline) (world r)),
         calls)
    | Aborted x => (Aborted x, world r, calls)
    end.
Proof.
  pose proof (Use_holds _ _ _ (before_Use_holds d w)) as HUse.
  unfold main_with, bind at 1. cbn [Println Print Sprintln format_v].
  unfold bind at 1, ret at 1. unfold bind at 1. rewrite NewUser_eq.
  unfold before_Use in HUse |- *. rewrite NewUser_eq in HUse |- *.
  cbn [world fst snd next_addr write] in HUse |- *.
  unfold bind at 1. rewrite HUse.
  destruct (method d 123 "Hello GoMock" _) as [[[[e|]|x] w1] inner];
    reflexivity.
Qed.

(** A run of [main]: it returns, having made the one call and printed the
    four lines. *)
Lemma main_run w :
  main w
  = (Returned tt,
     {| stdout := stdout w +:+ "start" +:+ newline
                  +:+ "DoSomething Hello GoMock 123 times" +:+ newline
                  +:+ "error: Hello GoMock != 123" +:+ newline
                  +:+ "end" +:+ newline;
        next_addr := S (S (next_addr w));
        users := <[next_addr w := {| User_Doer := Some (RealDoer doerImpl_ptr) |}]>
                   (users w);
        ext := ext w |},
     [Call (RealDoer doerImpl_ptr) 123 "Hello GoMock" []]).
Proof.
  change (main w) with (main_with (ret (Some (RealDoer doerImpl_ptr))) w).
  rewrite main_with_eq.
  change (method (RealDoer doerImpl_ptr) 123 "Hello GoMock"
            (before_Use (RealDoer doerImpl_ptr) w))
    with (doerImpl_DoSomething doerImpl_ptr 123 "Hello GoMock"
            (before_Use (RealDoer doerImpl_ptr) w)).
  rewrite DoSomething_differ by discriminate.
  cbn. unfold write. cbn [stdout next_addr users ext].
  now rewrite !append_assoc.
Qed.

(** C7.  The entry point builds the real capability, wires it into a
    consumer and calls [Use()].  Whatever capability is wired in: when
    [Use()] returns nil, only the line ["end"] follows on standard output;
    when it returns an error, the line of the error's text and then ["end"]
    follow; the process exits with status 0 in both cases, as [main] itself
    does in every run. *)
Theorem main_prints_error_iff_failure d w :
  (forall w', main w' = main_with (bind NewDoer (fun p => ret (Some (RealDoer p)))) w')
  /\ exit_status (outcome (main w)) = 0
  /\ match outcome (method d 123 "Hello GoMock" (before_Use d w)) with
     | Returned None =>
         stdout (world (main_with (ret (Some d)) w))
         = stdout (world (method d 123 "Hello GoMock" (before_Use d w)))
           +:+ "end" +:+ newline
         /\ exit_status (outcome (main_with (ret (Some d)) w)) = 0
     | Returned (Some e) =>
         stdout (world (main_with (ret (Some d)) w))
         = stdout (world (method d 123 "Hello GoMock" (before_Use d w)))
           +:+ err_text e +:+ newline +:+ "end" +:+ newline
         /\ exit_status (outcome (main_with (ret (Some d)) w)) = 0
     | Aborted x =>
         outcome (main_with (ret (Some d)) w) = Aborted x
     end.
Proof.
  split; [reflexivity |].
  split; [now rewrite main_run |].
  rewrite main_with_eq. cbv zeta.
  destruct (outcome (method d 123 "Hello GoMock" (before_Use d w)))
    as [[e|]|x]; cbn [outcome world fst snd stdout write exit_status].
  - split; [| reflexivity]. now rewrite !append_assoc.
  - now split.
  - reflexivity.
Qed.

(** C8.  As wired in [main], with the real capability, [Use()] returns an
    error with the text ["error: Hello GoMock != 123"] in every run: the
    decimal form of 123 is not ["Hello GoMock"].  [main] therefore prints
    that line in every run and never takes the path of success. *)
Theorem wired_Use_always_fails w :
  Itoa 123 <> "Hello GoMock"
  /\ outcome (wired_Use w)
     = Returned (Some {| err_addr := S (next_addr w);
                         err_text := "error: Hello GoMock != 123" |})
  /\ outcome (main w) = Returned tt
  /\ stdout (world (main w))
     = stdout w +:+ "start" +:+ newline
       +:+ "DoSomething Hello GoMock 123 times" +:+ newline
       +:+ "error: Hello GoMock != 123" +:+ newline
       +:+ "end" +:+ newline.
Proof.
  split; [discriminate |].
  split.
  - unfold wired_Use, NewDoer, bind at 1, ret.
    unfold bind. rewrite NewUser_eq.
    rewrite (Use_holds (RealDoer doerImpl_ptr) (next_addr w)
               (world (NewUser (Some (RealDoer doerImpl_ptr)) w)))
      by apply NewUser_holds.
    reflexivity.
  - now rewrite main_run.
Qed.

End Main_facts.

(** ** The type matcher *)

Section Match_facts.

Context {rtype V : Type} (rtype_String : rtype -> string).
Implicit Types (x : eface rtype V) (o : ofType) (ty : rtype).

(** C9.  For every string [t] and every argument [x] with a dynamic type
    [ty], [Matches(x)] of the matcher [NewOfType(t)] returns true exactly
    when the name of [ty] is [t], and [String()] returns ["is of type "]
    followed by [t]. *)
Theorem ofType_Matches_iff_type_name (t : string) x ty :
  TypeOf x = Some ty ->
  (exists b : bool,
     ofType_Matches rtype_String (NewOfType t) x = Returned b
     /\ (b = true <-> rtype_String ty = t))
  /\ ofType_String (NewOfType t) = "is of type " +:+ t.
Proof.
  intros Hty. split; [| reflexivity].
  unfold ofType_Matches. rewrite Hty.
  eexists. split; [reflexivity |]. apply String.eqb_eq.
Qed.

(** C10.  [Matches] panics on a nil interface value (the nil
    [reflect.Type] has no [String()] to call), and returns exactly for the
    arguments that have a dynamic type. *)
Theorem ofType_Matches_panics_on_nil o :
  ofType_Matches rtype_String o (@eface_nil rtype V) = Aborted nil_dereference
  /\ (forall x,
        (exists b : bool, ofType_Matches rtype_String o x = Returned b)
        <-> TypeOf x <> None).
Proof.
  split; [reflexivity |].
  intros [|ty v]; unfold ofType_Matches; cbn [TypeOf]; split.
  - intros [b Hb]. discriminate.
  - intros H. now contradiction H.
  - discriminate.
  - intros _. now eexists.
Qed.

End Match_facts.

(** ** The test substitute *)

Section Substitute_facts.

Implicit Types (s : Substitute) (e : Expectation) (all rest : list Expectation)
  (method : string) (args : list Operand) (w : World MockDoer Substitute).

Lemma args_match_Forall2 (ms : list Matcher) args :
  args_match ms args = true <-> Forall2 (fun m x => matches m x = true) ms args.
Proof.
  revert args. induction ms as [|m ms IH]; intros [|x args]; cbn.
  - split; [constructor | reflexivity].
  - split; [discriminate | inversion 1].
  - split; [discriminate | inversion 1].
  - rewrite andb_true_iff, IH. split.
    + intros [Hm Hrest]. now constructor.
    + inversion 1; subst. now split.
Qed.

(** What makes an expectation the one to select, condition by condition. *)
Lemma selectable_iff all method args e :
  selectable all method args e = true
  <-> exp_method e = method
      /\ Forall2 (fun m x => matches m x = true) (exp_args e) args
      /\ (exp_calls e < exp_max e)%nat
      /\ (forall j a, j ∈ exp_after e -> all !! j = Some a -> satisfied a = true).
Proof.
  unfold selectable, exhausted, order_eligible.
  rewrite !andb_true_iff, String.eqb_eq, args_match_Forall2,
    negb_true_iff, Nat.leb_gt, forallb_forall.
  split.
  - intros [[[Hm Ha] Hc] Ho]. repeat split; try assumption.
    intros j a Hj Hlook. apply list_elem_of_In in Hj.
    specialize (Ho j Hj). now rewrite Hlook in Ho.
  - intros (Hm & Ha & Hc & Ho). repeat split; try assumption.
    intros j Hj. apply list_elem_of_In in Hj.
    destruct (all !! j) as [a|] eqn:Hlook; [now apply (Ho j) | reflexivity].
Qed.

(** The search returns the first selectable expectation of [rest]. *)
Lemma find_from_Some all rest (i : nat) method args (k : nat) e :
  find_from all rest i method args = Some (k, e)
  <-> exists j : nat,
        k = (i + j)%nat
        /\ rest !! j = Some e
        /\ selectable all method args e = true
        /\ (forall (j' : nat) e', (j' < j)%nat -> rest !! j' = Some e' ->
              selectable all method args e' = false).
Proof.
  revert i. induction rest as [|e0 rest IH]; intros i; cbn [find_from].
  - split; [discriminate | now intros (j & _ & H & _)].
  - destruct (selectable all method args e0) eqn:Hsel.
    + split.
      * intros [= <- <-]. exists 0%nat. repeat split; [lia | assumption | lia].
      * intros (j & -> & Hj & Hs & Hfirst). destruct j as [|j].
        -- cbn in Hj. injection Hj as <-. f_equal. f_equal. lia.
        -- specialize (Hfirst 0%nat e0 ltac:(lia) eq_refl). congruence.
    + rewrite IH. split.
      * intros (j & -> & Hj & Hs & Hfirst). exists (S j).
        repeat split; [lia | assumption | assumption |].
        intros [|j'] e' Hlt Hl; cbn in Hl.
        -- now injection Hl as <-.
        -- apply (Hfirst j'); [lia | assumption].
      * intros (j & -> & Hj & Hs & Hfirst). destruct j as [|j].
        -- cbn in Hj. injection Hj as <-. congruence.
        -- exists j. repeat split; [lia | assumption | assumption |].
           intros j' e' Hlt Hl. apply (Hfirst (S j')); [lia | assumption].
Qed.

Lemma find_from_None all rest (i : nat) method args :
  find_from all rest i method args = None
  <-> (forall e, e ∈ rest -> selectable all method args e = false).
Proof.
  revert i. induction rest as [|e0 rest IH]; intros i; cbn [find_from].
  - split; [intros _ e He; inversion He | reflexivity].
  - destruct (selectable all method args e0) eqn:Hsel.
    + split; [discriminate |]. intros H.
      specialize (H e0 ltac:(left)). congruence.
    + rewrite IH. split.
      * intros H e He. inversion He; subst; [assumption | now apply H].
      * intros H e He. apply H. now right.
Qed.

Lemma embeds_join (part : string) (parts : list string) :
  part ∈ parts -> embeds part (join ", " parts).
Proof.
  induction parts as [|p parts IH]; [inversion 1 |].
  intros Hin. destruct parts as [|q parts].
  - inversion Hin; subst; [apply embeds_refl | easy].
  - change (join ", " (p :: q :: parts))
      with (p +:+ ", " +:+ join ", " (q :: parts)).
    inversion Hin; subst.
    + apply embeds_append_l, embeds_refl.
    + auto with embeds.
Qed.

Lemma show_call_embeds method args :
  embeds method (show_call method args)
  /\ Forall (fun x => embeds (format_v x) (show_call method args)) args.
Proof.
  unfold show_call. split; [apply embeds_append_l, embeds_refl |].
  apply Forall_forall. intros x Hx.
  apply embeds_append_r, embeds_append_r, embeds_append_l, embeds_join.
  apply list_elem_of_fmap. now exists x.
Qed.

(** C5.  An argument matcher is equality with the expected value or an
    explicit predicate; an expectation matches a call when each positional
    argument satisfies its matcher; the substitute selects the first
    declared expectation that matches, is not exhausted and is eligible by
    order, counts it and returns its canned outcome; when there is none, it
    fails the test at once with a message that names the method and every
    argument of the call. *)
Theorem substitute_selects_first_match method args w :
  (forall (v x : Operand), matches (Exact v) x = true <-> x = v)
  /\ (forall descr p (x : Operand), matches (Predicate descr p) x = p x)
  /\ (forall e,
        selectable (expectations (ext w)) method args e = true
        <-> exp_method e = method
            /\ Forall2 (fun m x => matches m x = true) (exp_args e) args
            /\ (exp_calls e < exp_max e)%nat
            /\ (forall j a, j ∈ exp_after e ->
                  expectations (ext w) !! j = Some a -> satisfied a = true))
  /\ (forall (i : nat) e,
        find_match (ext w) method args = Some (i, e)
        <-> expectations (ext w) !! i = Some e
            /\ selectable (expectations (ext w)) method args e = true
            /\ (forall (j : nat) e', (j < i)%nat ->
                  expectations (ext w) !! j = Some e' ->
                  selectable (expectations (ext w)) method args e' = false))
  /\ (forall (i : nat) e,
        find_match (ext w) method args = Some (i, e) ->
        outcome (substitute_call method args w) = Returned (exp_return e)
        /\ expectations (ext (world (substitute_call method args w)))
           = <[i := count_call e]> (expectations (ext w))
        /\ failures (ext (world (substitute_call method args w)))
           = failures (ext w))
  /\ ((forall e, e ∈ expectations (ext w) ->
         selectable (expectations (ext w)) method args e = false) ->
      outcome (substitute_call method args w) = Aborted Goexit
      /\ exists msg : string,
           failures (ext (world (substitute_call method args w)))
           = failures (ext w) ++ [msg]
           /\ embeds method msg
           /\ Forall (fun x => embeds (format_v x) msg) args).
Proof.
  split; [intros v x; cbn; apply bool_decide_eq_true |].
  split; [reflexivity |].
  split; [intros e; apply selectable_iff |].
  split.
  { intros i e. unfold find_match. rewrite find_from_Some. split.
    - intros (j & -> & Hj & Hs & Hfirst). now repeat split.
    - intros (Hi & Hs & Hfirst). now exists i. }
  split.
  { intros i e Hfind. unfold substitute_call. now rewrite Hfind. }
  intros Hnone. apply (find_from_None _ _ 0%nat) in Hnone.
  unfold substitute_call, find_match. rewrite Hnone.
  split; [reflexivity |]. eexists. split; [reflexivity |].
  destruct (show_call_embeds method args) as [Hm Ha].
  split; [now apply embeds_append_r |].
  eapply Forall_impl; [exact Ha |]. intros x Hx. now apply embeds_append_r.
Qed.

End Substitute_facts.

(** ** The scenarios, worked *)

Lemma DoSomething_witness :
  Itoa 123 <> "124"
  /\ exists e : errorValue,
       outcome (doerImpl_DoSomething doerImpl_ptr 123 "124" start_world)
       = Returned (Some e)
       /\ err_text e = "error: " +:+ "124" +:+ " != " +:+ Itoa 123
       /\ embeds "124" (err_text e)
       /\ embeds (Itoa 123) (err_text e).
Proof.
  split; [discriminate |].
  apply (DoSomething_succeeds_iff_decimal doerImpl_ptr 123 "124" start_world).
  discriminate.
Defined.

Lemma Use_calls_once_witness :
  holds 1 mock (test_world (Some dummyError))
  /\ trace (Use (Some 1%nat) (test_world (Some dummyError)))
     = [Call mock 123 "Hello GoMock"
          (trace (method mock 123 "Hello GoMock" (test_world (Some dummyError))))].
Proof.
  split; [reflexivity |].
  apply (Use_calls_capability_once mock 1%nat (test_world (Some dummyError))).
  reflexivity.
Defined.

Lemma Use_returns_witness :
  holds 1 mock (test_world (Some dummyError))
  /\ outcome (Use (Some 1%nat) (test_world (Some dummyError)))
     = outcome (method mock 123 "Hello GoMock" (test_world (Some dummyError)))
  /\ world (Use (Some 1%nat) (test_world (Some dummyError)))
     = world (method mock 123 "Hello GoMock" (test_world (Some dummyError))).
Proof.
  split; [reflexivity |].
  apply (Use_returns_what_capability_returned mock 1%nat
           (test_world (Some dummyError))).
  reflexivity.
Defined.

Lemma consumer_delegates_witness :
  holds 1 real real_world
  /\ holds 1 real (world (Use_times 3 (Some 1%nat) real_world))
  /\ Forall (is_fixed_call real) (trace (Use_times 3 (Some 1%nat) real_world))
  /\ (outcome (Use_times 3 (Some 1%nat) real_world) = Returned tt ->
      length (trace (Use_times 3 (Some 1%nat) real_world)) = 3%nat).
Proof.
  split; [reflexivity |].
  apply (consumer_delegates_to_its_capability (Some real) real 1%nat real_world 3).
  - intros w' Hw'. unfold holds. cbn [method real].
    change (DoSomething doerImpl_ptr) with (doerImpl_DoSomething (E:=Substitute) (Other:=MockDoer) doerImpl_ptr).
    rewrite DoSomething_keeps_users. exact Hw'.
  - reflexivity.
Defined.

(** C6, as it was claimed for every capability, fails: a capability that
    reassigns the exported field makes the consumer hold another capability
    after the first [Use()], and the second [Use()] calls that other
    capability. *)
Lemma consumer_rewired_counterexample :
  holds 1 rewire rewire_world
  /\ outcome (Use_times 2 (Some 1%nat) rewire_world) = Returned tt
  /\ trace (Use_times 2 (Some 1%nat) rewire_world)
     = [Call rewire 123 "Hello GoMock" [];
        Call (RealDoer doerImpl_ptr) 123 "Hello GoMock" []]
  /\ ~ Forall (is_fixed_call rewire) (trace (Use_times 2 (Some 1%nat) rewire_world))
  /\ ~ holds 1 rewire (world (Use (Some 1%nat) rewire_world)).
Proof.
  split; [reflexivity |]. split; [reflexivity |]. split; [reflexivity |].
  split.
  - change (trace (Use_times 2 (Some 1%nat) rewire_world))
      with [Call rewire 123 "Hello GoMock" [];
            Call (RealDoer doerImpl_ptr) 123 "Hello GoMock" []].
    intros H. inversion H as [|? ? _ Hrest]; subst.
    inversion Hrest as [|? ? [inner Hcall] _]; subst. discriminate Hcall.
  - unfold holds. vm_compute. discriminate.
Qed.

Lemma ofType_Matches_witness :
  TypeOf (box (OString "Hello GoMock")) = Some TString
  /\ (exists b : bool,
        ofType_Matches GoType_String (NewOfType "string")
          (box (OString "Hello GoMock")) = Returned b
        /\ (b = true <-> GoType_String TString = "string"))
  /\ ofType_String (NewOfType "string") = "is of type " +:+ "string".
Proof.
  split; [reflexivity |].
  apply (ofType_Matches_iff_type_name GoType_String "string"
           (box (OString "Hello GoMock")) TString).
  reflexivity.
Defined.

Lemma substitute_witness :
  (expectations (ext busy_world) !! 2%nat = Some taking
   /\ selectable (expectations (ext busy_world)) "DoSomething" fixed_args taking
      = true
   /\ selectable (expectations (ext busy_world)) "DoSomething" fixed_args used_up
      = false
   /\ selectable (expectations (ext busy_world)) "DoSomething" fixed_args
        (waiting_for 3) = false
   /\ selectable (expectations (ext busy_world)) "DoSomething" fixed_args catch_all
      = true)
  /\ (exp_method taking = "DoSomething"
      /\ Forall2 (fun m x => matches m x = true) (exp_args taking) fixed_args
      /\ (exp_calls taking < exp_max taking)%nat
      /\ (forall j a, j ∈ exp_after taking ->
            expectations (ext busy_world) !! j = Some a -> satisfied a = true))
  /\ find_match (ext busy_world) "DoSomething" fixed_args = Some (2%nat, taking)
  /\ (outcome (substitute_call "DoSomething" fixed_args busy_world)
      = Returned (Some dummyError)
      /\ expectations (ext (world (substitute_call "DoSomething" fixed_args
                                     busy_world)))
         = [used_up; waiting_for 3; count_call taking; other_count; catch_all]
      /\ failures (ext (world (substitute_call "DoSomething" fixed_args
                                 busy_world))) = [])
  /\ (forall e, e ∈ expectations (ext spent_world) ->
        selectable (expectations (ext spent_world)) "DoSomething" fixed_args e
        = false)
  /\ outcome (substitute_call "DoSomething" fixed_args spent_world)
     = Aborted Goexit
  /\ exists msg : string,
       failures (ext (world (substitute_call "DoSomething" fixed_args
                               spent_world)))
       = failures (ext spent_world) ++ [msg]
       /\ embeds "DoSomething" msg
       /\ Forall (fun x => embeds (format_v x) msg) fixed_args.
Proof.
  destruct (substitute_selects_first_match "DoSomething" fixed_args busy_world)
    as (_ & _ & Hconditions & Hfirst & Hcanned & _).
  destruct (substitute_selects_first_match "DoSomething" fixed_args spent_world)
    as (_ & _ & _ & _ & _ & Hfails).
  assert (Hfind : find_match (ext busy_world) "DoSomething" fixed_args
                  = Some (2%nat, taking)).
  { apply Hfirst. split; [reflexivity |]. split; [reflexivity |].
    intros [|[|j]] e' Hlt Hlook; cbn in Hlook.
    - now injection Hlook as <-.
    - now injection Hlook as <-.
    - lia. }
  assert (Hnone : forall e, e ∈ expectations (ext spent_world) ->
            selectable (expectations (ext spent_world)) "DoSomething"
              fixed_args e = false).
  { intros e He. cbn in He.
    apply elem_of_cons in He as [-> | He]; [reflexivity |].
    apply elem_of_cons in He as [-> | He]; [reflexivity |].
    apply elem_of_cons in He as [-> | He]; [reflexivity |].
    inversion He. }
  split; [now repeat split |].
  split; [now apply Hconditions |].
  split; [exact Hfind |].
  split; [exact (Hcanned 2%nat taking Hfind) |].
  split; [exact Hnone |].
  exact (Hfails Hnone).
Defined.

(** Scenario A: the real capability accepts [(123, "123")]. *)
Example scenario_A :
  outcome (doerImpl_DoSomething doerImpl_ptr 123 "123" start_world) = Returned None.
Proof. reflexivity. Qed.

(** Scenario C: the substitute expects the one call and returns nil; after
    [Use()] the finalization reports nothing. *)
Example scenario_C :
  let r := bind (Use (Some 1%nat)) (fun err => bind Finish (fun _ => ret err))
             (test_world None) in
  outcome r = Returned None
  /\ failures (ext (world r)) = []
  /\ invocations (ext (world r)) = [("DoSomething", [OInt 123; OString "Hello GoMock"])].
Proof. now vm_compute. Qed.

(** Scenario D: the substitute returns the error [dummyError]; [Use()]
    returns that very error. *)
Example scenario_D :
  outcome (Use (Some 1%nat) (test_world (Some dummyError)))
  = Returned (Some dummyError).
Proof. reflexivity. Qed.

(** Scenario E: an expectation that is never called; the finalization
    reports one unmet expectation. *)
Example scenario_E :
  length (failures (ext (world (Finish (test_world None))))) = 1%nat.
Proof. reflexivity. Qed.

(** A call that no expectation matches ends the test at once. *)
Example unexpected_call :
  let r := Use (Some 1%nat)
             (world (NewUser (Some mock) start_world)) in
  outcome r = Aborted Goexit
  /\ failures (ext (world r))
     = ["unexpected call to DoSomething(123, Hello GoMock)"].
Proof. now vm_compute. Qed.

(** * Further properties of the code *)

(** ** The real capability *)

Section Doer_effects.

Context {Other E : Type} `{Other_Doer : !Doer Other E Other}.
Implicit Types (w : World Other E) (d : doerImpl) (n m : Z) (s : string).

(** X1.  Whatever it returns, [DoSomething] of the real capability appends
    exactly its diagnostic line to standard output, leaves the consumers on
    the heap and the state of other implementations alone, makes no call
    through the interface, and allocates one object (the error) exactly
    when the decimal form of the count differs from the label. *)
Theorem DoSomething_effects d n s w :
  stdout (world (doerImpl_DoSomething d n s w))
  = stdout w +:+ "DoSomething " +:+ s +:+ " " +:+ Itoa n +:+ " times" +:+ newline
  /\ users (world (doerImpl_DoSomething d n s w)) = users w
  /\ ext (world (doerImpl_DoSomething d n s w)) = ext w
  /\ trace (doerImpl_DoSomething d n s w) = []
  /\ next_addr (world (doerImpl_DoSomething d n s w))
     = (if String.eqb (Itoa n) s then next_addr w else S (next_addr w)).
Proof.
  destruct (String.eqb_spec (Itoa n) s) as [Heq | Hne].
  - rewrite (DoSomething_equal _ _ _ _ Heq). now repeat split.
  - rewrite (DoSomething_differ _ _ _ _ Hne). now repeat split.
Qed.

(** X2.  The label that is the decimal form of [m] is accepted for the
    count [m] and for no other count. *)
Theorem DoSomething_accepts_one_count d n m w :
  outcome (doerImpl_DoSomething d n (Itoa m) w) = Returned None <-> n = m.
Proof.
  destruct (Z.eq_dec n m) as [-> | Hne].
  - rewrite (DoSomething_equal _ _ _ _ eq_refl). now split.
  - rewrite DoSomething_differ.
    + split; [discriminate | contradiction].
    + intros H. now apply Hne, Itoa_inj.
Qed.

(** X3.  Every failure is a new error object: two failing calls in a row,
    even with the same arguments, return two different error values that
    carry the same text. *)
Theorem DoSomething_errors_are_fresh d n s w :
  Itoa n <> s ->
  exists e1 e2 : errorValue,
    outcome (doerImpl_DoSomething d n s w) = Returned (Some e1)
    /\ outcome (doerImpl_DoSomething d n s
                  (world (doerImpl_DoSomething d n s w))) = Returned (Some e2)
    /\ e1 <> e2
    /\ err_text e1 = err_text e2.
Proof.
  intros Hne. rewrite !(DoSomething_differ _ _ _ _ Hne).
  do 2 eexists. split; [reflexivity |]. split; [reflexivity |].
  split; [| reflexivity].
  cbn [world fst snd next_addr]. intros [= Haddr]. lia.
Qed.

(** X4.  A label that is not a decimal numeral (the empty label, a bare
    sign, a word) is rejected for every count, with the usual error
    text. *)
Theorem DoSomething_rejects_non_numerals d n s w :
  NilZero.int_of_string s = None ->
  exists e : errorValue,
    outcome (doerImpl_DoSomething d n s w) = Returned (Some e)
    /\ err_text e = "error: " +:+ s +:+ " != " +:+ Itoa n.
Proof.
  intros Hs. rewrite DoSomething_differ.
  - now eexists.
  - intros Heq. pose proof (Itoa_reads_back n) as Hn.
    rewrite Heq, Hs in Hn. discriminate.
Qed.

End Doer_effects.

(** ** The consumer *)

Section User_composition.

Context {Other E : Type} `{Other_Doer : !Doer Other E Other}.
Implicit Types (w : World Other E) (d : DoerObj Other) (a : addr).

(** X5.  [NewUser] accepts a nil capability as it accepts any other; [Use()]
    of such a consumer, like [Use()] through a nil [*User], panics with a
    nil dereference, having made no call and changed nothing. *)
Theorem Use_panics_without_capability w :
  Use None w = (Aborted nil_dereference, w, [])
  /\ outcome (NewUser None w) = Returned (Some (next_addr w))
  /\ Use (Some (next_addr w)) (world (NewUser None w))
     = (Aborted nil_dereference, world (NewUser None w), []).
Proof.
  split; [reflexivity |]. split; [reflexivity |].
  rewrite NewUser_eq. unfold Use, bind, load_User.
  cbn [world fst snd users]. now rewrite lookup_insert_eq.
Qed.

(** X6.  Constructing a second consumer does not overwrite the first: after
    [NewUser(d1)] and then [NewUser(d2)] the two pointers differ, the first
    consumer holds [d1] and the second holds [d2], and in that state
    [Use()] of either one is one call of its own capability and ends as
    that call ends. *)
Theorem two_consumers_hold_their_own d1 d2 w :
  let w2 := world (bind (NewUser (Some d1)) (fun _ => NewUser (Some d2)) w) in
  outcome (NewUser (Some d1) w) = Returned (Some (next_addr w))
  /\ outcome (bind (NewUser (Some d1)) (fun _ => NewUser (Some d2)) w)
     = Returned (Some (S (next_addr w)))
  /\ holds (next_addr w) d1 w2
  /\ holds (S (next_addr w)) d2 w2
  /\ Use (Some (next_addr w)) w2
     = (outcome (method d1 123 "Hello GoMock" w2),
        world (method d1 123 "Hello GoMock" w2),
        [Call d1 123 "Hello GoMock" (trace (method d1 123 "Hello GoMock" w2))])
  /\ Use (Some (S (next_addr w))) w2
     = (outcome (method d2 123 "Hello GoMock" w2),
        world (method d2 123 "Hello GoMock" w2),
        [Call d2 123 "Hello GoMock" (trace (method d2 123 "Hello GoMock" w2))]).
Proof.
  cbv zeta. unfold bind. rewrite !NewUser_eq. cbn [outcome world fst snd next_addr].
  assert (H1 : holds (next_addr w) d1
    {| stdout := stdout w; next_addr := S (S (next_addr w));
       users := <[S (next_addr w) := {| User_Doer := Some d2 |}]>
                  (<[next_addr w := {| User_Doer := Some d1 |}]> (users w));
       ext := ext w |}).
  { unfold holds. cbn [users].
    rewrite lookup_insert_ne by lia. apply lookup_insert_eq. }
  assert (H2 : holds (S (next_addr w)) d2
    {| stdout := stdout w; next_addr := S (S (next_addr w));
       users := <[S (next_addr w) := {| User_Doer := Some d2 |}]>
                  (<[next_addr w := {| User_Doer := Some d1 |}]> (users w));
       ext := ext w |}).
  { unfold holds. cbn [users]. apply lookup_insert_eq. }
  split; [reflexivity |]. split; [reflexivity |].
  split; [exact H1 |]. split; [exact H2 |].
  split; now apply Use_holds.
Qed.

Lemma repeat_string_S (k : nat) (s : string) :
  repeat_string (S k) s = s +:+ repeat_string k s.
Proof. reflexivity. Qed.

(** One call of [Use()] on a consumer of the real capability. *)
Lemma Use_real a w :
  holds a (RealDoer doerImpl_ptr) w ->
  Use (Some a) w
  = (Returned (Some {| err_addr := next_addr w;
                       err_text := "error: Hello GoMock != 123" |}),
     {| stdout := stdout w +:+ fixed_line;
        next_addr := S (next_addr w);
        users := users w;
        ext := ext w |},
     [Call (RealDoer doerImpl_ptr) 123 "Hello GoMock" []]).
Proof.
  intros Hw. rewrite (Use_holds _ _ _ Hw).
  change (method (RealDoer doerImpl_ptr) 123 "Hello GoMock" w)
    with (doerImpl_DoSomething doerImpl_ptr 123 "Hello GoMock" w).
  now rewrite DoSomething_differ by discriminate.
Qed.

(** X7.  A consumer of the real capability fails whenever it is used: in
    any state, [Use()] returns a new error with the text
    ["error: Hello GoMock != 123"] and prints the diagnostic line; [k]
    calls in a row all return, print the line [k] times, allocate [k] error
    objects, make [k] calls of the capability and change nothing else. *)
Theorem Use_times_real (k : nat) a w :
  holds a (RealDoer doerImpl_ptr) w ->
  Use (Some a) w
  = (Returned (Some {| err_addr := next_addr w;
                       err_text := "error: Hello GoMock != 123" |}),
     {| stdout := stdout w +:+ fixed_line;
        next_addr := S (next_addr w);
        users := users w;
        ext := ext w |},
     [Call (RealDoer doerImpl_ptr) 123 "Hello GoMock" []])
  /\ Use_times k (Some a) w
     = (Returned tt,
        {| stdout := stdout w +:+ repeat_string k fixed_line;
           next_addr := (k + next_addr w)%nat;
           users := users w;
           ext := ext w |},
        repeat (Call (RealDoer doerImpl_ptr) 123 "Hello GoMock" []) k).
Proof.
  intros Hw. split; [now apply Use_real |].
  revert w Hw. induction k as [|k IH]; intros w Hw.
  - destruct w. cbn. now rewrite append_empty_r.
  - rewrite Use_times_S. unfold bind. rewrite (Use_real _ _ Hw).
    rewrite IH by exact Hw.
    cbn [stdout next_addr users ext app repeat].
    rewrite repeat_string_S, append_assoc.
    replace (k + S (next_addr w))%nat with (S k + next_addr w)%nat by lia.
    reflexivity.
Qed.

(** X8.  In every state, [main] makes exactly one call through the
    interface, the call of the real capability with [(123, "Hello
    GoMock")]; the one change to the heap of consumers is the new consumer,
    which holds the real capability; the state of other implementations
    stays. *)
Theorem main_effects w :
  trace (main w) = [Call (RealDoer doerImpl_ptr) 123 "Hello GoMock" []]
  /\ users (world (main w))
     = <[next_addr w := {| User_Doer := Some (RealDoer doerImpl_ptr) |}]> (users w)
  /\ ext (world (main w)) = ext w.
Proof. rewrite main_run. now repeat split. Qed.

End User_composition.

(** ** The type matcher *)

Section Match_names.

Context {rtype V : Type} (rtype_String : rtype -> string).
Implicit Types (o : ofType) (ty : rtype) (v : V).

(** X9.  [Matches] looks at nothing but the name of the dynamic type: for
    two types of the same name, whatever the values, the matcher built from
    that name accepts both, and every matcher gives the same answer on
    both. *)
Theorem ofType_Matches_by_name_only o ty1 ty2 v1 v2 :
  rtype_String ty1 = rtype_String ty2 ->
  ofType_Matches rtype_String (NewOfType (rtype_String ty1)) (eface_of ty2 v2)
  = Returned true
  /\ ofType_Matches rtype_String o (eface_of ty1 v1)
     = ofType_Matches rtype_String o (eface_of ty2 v2).
Proof.
  intros Hname. unfold ofType_Matches. cbn [TypeOf t NewOfType].
  rewrite Hname. split; [| reflexivity].
  now rewrite String.eqb_refl.
Qed.

End Match_names.

Lemma DoSomething_fresh_witness :
  Itoa 123 <> "124"
  /\ exists e1 e2 : errorValue,
       outcome (doerImpl_DoSomething doerImpl_ptr 123 "124" start_world)
       = Returned (Some e1)
       /\ outcome (doerImpl_DoSomething doerImpl_ptr 123 "124"
                     (world (doerImpl_DoSomething doerImpl_ptr 123 "124" start_world)))
          = Returned (Some e2)
       /\ e1 <> e2
       /\ err_text e1 = err_text e2.
Proof.
  split; [discriminate |].
  apply (DoSomething_errors_are_fresh doerImpl_ptr 123 "124" start_world).
  discriminate.
Defined.

Lemma DoSomething_empty_label_witness :
  NilZero.int_of_string "" = None
  /\ exists e : errorValue,
       outcome (doerImpl_DoSomething doerImpl_ptr 0 "" start_world)
       = Returned (Some e)
       /\ err_text e = "error: " +:+ "" +:+ " != " +:+ Itoa 0.
Proof.
  split; [reflexivity |].
  apply (DoSomething_rejects_non_numerals doerImpl_ptr 0 "" start_world).
  reflexivity.
Defined.

Lemma Use_times_real_witness :
  holds 1 real real_world
  /\ Use (Some 1%nat) real_world
     = (Returned (Some {| err_addr := next_addr real_world;
                          err_text := "error: Hello GoMock != 123" |}),
        {| stdout := stdout real_world +:+ fixed_line;
           next_addr := S (next_addr real_world);
           users := users real_world;
           ext := ext real_world |},
        [Call real 123 "Hello GoMock" []])
  /\ Use_times 2 (Some 1%nat) real_world
     = (Returned tt,
        {| stdout := stdout real_world +:+ repeat_string 2 fixed_line;
           next_addr := (2 + next_addr real_world)%nat;
           users := users real_world;
           ext := ext real_world |},
        repeat (Call real 123 "Hello GoMock" []) 2).
Proof.
  split; [reflexivity |].
  apply (Use_times_real 2 1%nat real_world). reflexivity.
Defined.

Lemma ofType_by_name_witness :
  GoType_String (TPtr (TNamed "T")) = GoType_String (TNamed "*T")
  /\ ofType_Matches GoType_String (NewOfType (GoType_String (TPtr (TNamed "T"))))
       (eface_of (TNamed "*T") (OInt 2))
     = Returned true
  /\ ofType_Matches GoType_String (NewOfType "*T")
       (eface_of (TPtr (TNamed "T")) (OInt 1))
     = ofType_Matches GoType_String (NewOfType "*T")
         (eface_of (TNamed "*T") (OInt 2)).
Proof.
  split; [reflexivity |].
  apply (ofType_Matches_by_name_only GoType_String (NewOfType "*T")
           (TPtr (TNamed "T")) (TNamed "*T") (OInt 1) (OInt 2)).
  reflexivity.
Defined.
